(** * Andon board front end: the report store, its projection onto the
    board and the resolve-confirmation flow of [src/App.jsx].

    The component keeps its state in React hooks.  Every handler of the
    component is embedded as a function on that state; handlers that talk to
    the network take the outcome of the request as an argument and return the
    effects they issue next to the new state. *)

From Stdlib Require Import List String Ascii ZArith Lia Bool DecimalString.
From Stdlib Require Import Permutation.
Import ListNotations.
Local Open Scope string_scope.
Local Open Scope Z_scope.

(** ** Data model *)

(** A report as the backend sends it.  [_id], [loop], [section], [status] and
    [remark] are JavaScript strings.  [timestamp] is [null] or an ISO date
    string, which is never empty and hence truthy; it is kept as the instant it
    denotes, in milliseconds since the epoch.  [assigned] is carried along but
    never read by the component. *)
Record Report : Type := mkReport {
  _id : string;
  loop : string;
  section : string;
  status : string;
  assigned : string;
  remark : string;
  timestamp : option Z
}.

(** The (group, station) pair a report belongs to. *)
Definition key (r : Report) : string * string := (loop r, section r).

(** [productionAreas]: an object literal whose keys are not integer-like, so
    [Object.entries] and [Object.keys] enumerate it in declaration order. *)
Definition productionAreas : list (string * list string) :=
  [ ("Loop 1", ["A&T"; "TMA"; "SUBA/CONA"]);
    ("Loop 2", ["BSA SOFT"; "BSA HARD"; "EDM LASER"; "FIT/NULL"]);
    ("Loop 3", ["SBC MACH"; "SBC DEBUR"]);
    ("Loop 4", ["SB"; "GMC"]);
    ("Quality", ["RI"; "ZEISS"]);
    ("Planning", ["STOCKROOM"; "SHIPPING"]) ].

(** JavaScript truthiness of a string: only the empty string is falsy. *)
Definition truthy (s : string) : bool := negb (s =? "")%string.

(** Truthiness of a value that is [null] or a string. *)
Definition truthy_opt (o : option string) : bool :=
  match o with
  | Some s => truthy s
  | None => false
  end.

(** A template literal's rendering of an integer. *)
Definition show (n : Z) : string := NilZero.string_of_int (Z.to_int n).

(** ** Elapsed-time label *)

Section TimeAgo.

(** [manila d] is [new Date(d.toLocaleString("en-US", {timeZone:
    "Asia/Manila"}))]: the instant [d] printed as Manila wall-clock time and
    read back in the browser's own zone.  It depends on the browser and is a
    parameter.  [now] is what [new Date()] returns during the call. *)
Variable manila : Z -> Z.
Variable now : Z.

(** [diffInSeconds]: [Math.floor((now - reportTime) / 1000)]. *)
Definition diffInSeconds (ts : Z) : Z := (manila now - manila ts) / 1000.

(** The four returns of [timeAgo] after the null check. *)
Definition label (d : Z) : string :=
  if d <? 60 then show d ++ "s ago"
  else if d <? 3600 then show (d / 60) ++ "m ago"
  else if d <? 86400 then show (d / 3600) ++ "hr ago"
  else show (d / 86400) ++ "d ago".

Definition timeAgo (t : option Z) : string :=
  match t with
  | None => ""
  | Some ts => label (diffInSeconds ts)
  end.

End TimeAgo.

(** A browser running on Manila time with whole-second printing: the round
    trip drops the milliseconds. *)
Definition manila_local (d : Z) : Z := d / 1000 * 1000.

(** The round trip in a browser whose own zone keeps a constant offset from
    Manila time over the instants concerned: the printed wall-clock time has
    whole seconds, and reading it back in the browser's zone moves it by the
    difference [shift] of the two zones' offsets. *)
Definition wallClock (shift : Z) (manila : Z -> Z) : Prop :=
  forall d, manila d = d / 1000 * 1000 + shift.

(** ** The report store

    [reports] is a JavaScript array; every update goes through a functional
    [setReports] updater, embedded here as a function on the list. *)

(** The [newReport] listener: replace every entry carrying the incoming
    [_id]; append the report when no entry carries it. *)
Definition newReportUpdate (newReport : Report) (prev : list Report) : list Report :=
  let updatedReports :=
    map (fun r => if (_id r =? _id newReport)%string then newReport else r) prev in
  if existsb (fun r => (_id r =? _id newReport)%string) updatedReports
  then updatedReports
  else updatedReports ++ [newReport].

(** The [resolveReport] listener: [{ ...r, status: "green", remark: "",
    timestamp: null }] on every entry carrying [id]. *)
Definition resolved (r : Report) : Report :=
  {| _id := _id r; loop := loop r; section := section r; status := "green";
     assigned := assigned r; remark := ""; timestamp := None |}.

Definition resolveReportUpdate (id : string) (prev : list Report) : list Report :=
  map (fun r => if (_id r =? id)%string then resolved r else r) prev.

(** The updater run when [POST /report] is acknowledged with [data]: drop the
    entries carrying its [_id], then append it. *)
Definition sendReportUpdate (data : Report) (prev : list Report) : list Report :=
  filter (fun r => negb (_id r =? _id data)%string) prev ++ [data].

(** An upsert of the store: a [newReport] push or an acknowledged submit. *)
Inductive Upsert : Type :=
| Push (newReport : Report)
| Ack (data : Report).

Definition payload (u : Upsert) : Report :=
  match u with
  | Push r => r
  | Ack r => r
  end.

Definition upsert (u : Upsert) (prev : list Report) : list Report :=
  match u with
  | Push r => newReportUpdate r prev
  | Ack r => sendReportUpdate r prev
  end.


(** ** Component state, events and handlers *)

Record AppState : Type := mkApp {
  reports : list Report;
  selectedLoop : string;
  selectedSection : string;
  remarkText : string;            (* the [remark] hook *)
  showModal : bool;
  selectedReportId : option string
}.

(** [productionAreas[newLoop][0]].  The select's options are the catalog's
    keys, so the group is always found and never empty; the fallbacks stand
    for inputs the component cannot receive. *)
Definition first (l : list string) : string :=
  match l with
  | [] => ""
  | x :: _ => x
  end.

Definition catalogSections (lp : string) : list string :=
  match find (fun p => (fst p =? lp)%string) productionAreas with
  | Some (_, sections) => sections
  | None => []
  end.

Definition initial : AppState :=
  {| reports := [];
     selectedLoop := "Loop 1";
     selectedSection := first (catalogSections "Loop 1");
     remarkText := "";
     showModal := false;
     selectedReportId := None |}.

Definition setReports (f : list Report -> list Report) (s : AppState) : AppState :=
  {| reports := f (reports s); selectedLoop := selectedLoop s;
     selectedSection := selectedSection s; remarkText := remarkText s;
     showModal := showModal s; selectedReportId := selectedReportId s |}.

Definition setSelectedLoop (v : string) (s : AppState) : AppState :=
  {| reports := reports s; selectedLoop := v;
     selectedSection := selectedSection s; remarkText := remarkText s;
     showModal := showModal s; selectedReportId := selectedReportId s |}.

Definition setSelectedSection (v : string) (s : AppState) : AppState :=
  {| reports := reports s; selectedLoop := selectedLoop s;
     selectedSection := v; remarkText := remarkText s;
     showModal := showModal s; selectedReportId := selectedReportId s |}.

Definition setRemark (v : string) (s : AppState) : AppState :=
  {| reports := reports s; selectedLoop := selectedLoop s;
     selectedSection := selectedSection s; remarkText := v;
     showModal := showModal s; selectedReportId := selectedReportId s |}.

Definition setShowModal (v : bool) (s : AppState) : AppState :=
  {| reports := reports s; selectedLoop := selectedLoop s;
     selectedSection := selectedSection s; remarkText := remarkText s;
     showModal := v; selectedReportId := selectedReportId s |}.

Definition setSelectedReportId (v : option string) (s : AppState) : AppState :=
  {| reports := reports s; selectedLoop := selectedLoop s;
     selectedSection := selectedSection s; remarkText := remarkText s;
     showModal := showModal s; selectedReportId := v |}.

(** The reason a promise is rejected with: axios's error object, kept as its
    message. *)
Definition JsError : Type := string.

(** How a request settles: the promise is fulfilled with the response body
    or rejected with an error. *)
Inductive Settled (A : Type) : Type :=
| Fulfilled (data : A)
| Rejected (error : JsError).
Arguments Fulfilled {A} data.
Arguments Rejected {A} error.

(** What a handler does besides updating the hooks. *)
Inductive Effect : Type :=
| PostReport (lp sec st asg rmk : string)   (* POST /report with this body *)
| PostResolve (id : string)                 (* POST /resolve/<id> *)
| ConsoleError (msg : string) (error : JsError).  (* console.error(msg, error) *)

Definition isRequest (e : Effect) : bool :=
  match e with
  | PostReport _ _ _ _ _ => true
  | PostResolve _ => true
  | ConsoleError _ _ => false
  end.

Inductive Event : Type :=
| SnapshotSettled (res : Settled (list Report))  (* GET /reports settles *)
| NewReport (newReport : Report)                 (* push "newReport" *)
| ResolveReport (id : string)                    (* push "resolveReport" *)
| ChangeLoop (newLoop : string)                  (* first select *)
| ChangeSection (sec : string)                   (* second select *)
| ChangeRemark (text : string)                   (* remark input *)
| ClickStatus (st : string)                      (* Red / Yellow / Green *)
| ReportSettled (res : Settled Report)           (* POST /report settles *)
| ClickResolve (id : string)                     (* a cell's Resolve button *)
| ClickYes                                       (* modal: Yes *)
| ResolveSettled (res : Settled unit)            (* POST /resolve settles *)
| ClickCancel.                                   (* modal: Cancel *)

(** [confirmResolve(id)]: stage the id and open the modal. *)
Definition confirmResolve (id : string) (s : AppState) : AppState :=
  setShowModal true (setSelectedReportId (Some id) s).

(** [resolveReport] up to its [await]: nothing when the staged id is falsy,
    else the request. *)
Definition resolveReport (s : AppState) : list Effect :=
  match selectedReportId s with
  | Some id => if truthy id then [PostResolve id] else []
  | None => []
  end.

(** [resolveReport] after its [await]: the [try] body's two setters, or the
    [catch] block. *)
Definition resolveReportSettled (res : Settled unit) (s : AppState)
  : AppState * list Effect :=
  match res with
  | Fulfilled _ => (setSelectedReportId None (setShowModal false s), [])
  | Rejected error => (s, [ConsoleError "❌ Error resolving report:" error])
  end.

(** [sendReport(status)] up to the request. *)
Definition sendReport (st : string) (s : AppState) : list Effect :=
  [PostReport (selectedLoop s) (selectedSection s) st "John Doe" (remarkText s)].

(** The [then] and [catch] callbacks of [sendReport]. *)
Definition sendReportSettled (res : Settled Report) (s : AppState)
  : AppState * list Effect :=
  match res with
  | Fulfilled data => (setRemark "" (setReports (sendReportUpdate data) s), [])
  | Rejected error => (s, [ConsoleError "❌ Error sending report:" error])
  end.

(** The snapshot promise has a [then] callback and no [catch]. *)
Definition snapshotSettled (res : Settled (list Report)) (s : AppState)
  : AppState * list Effect :=
  match res with
  | Fulfilled data => (setReports (fun _ => data) s, [])
  | Rejected _ => (s, [])
  end.

Definition handle (e : Event) (s : AppState) : AppState * list Effect :=
  match e with
  | SnapshotSettled res => snapshotSettled res s
  | NewReport r => (setReports (newReportUpdate r) s, [])
  | ResolveReport id => (setReports (resolveReportUpdate id) s, [])
  | ChangeLoop newLoop =>
      (setSelectedSection (first (catalogSections newLoop))
         (setSelectedLoop newLoop s), [])
  | ChangeSection sec => (setSelectedSection sec s, [])
  | ChangeRemark text => (setRemark text s, [])
  | ClickStatus st => (s, sendReport st s)
  | ReportSettled res => sendReportSettled res s
  | ClickResolve id => (confirmResolve id s, [])
  | ClickYes => (s, resolveReport s)
  | ResolveSettled res => resolveReportSettled res s
  | ClickCancel => (setShowModal false s, [])
  end.

(** The modal's two buttons exist only while the modal is rendered; every
    other event can arrive in any state. *)
Definition enabled (e : Event) (s : AppState) : bool :=
  match e with
  | ClickYes | ClickCancel => showModal s
  | _ => true
  end.

(** Events handled in order, effects collected. *)
Fixpoint run (es : list Event) (s : AppState) : AppState * list Effect :=
  match es with
  | [] => (s, [])
  | e :: es' =>
      let (s1, out1) := handle e s in
      let (s2, out2) := run es' s1 in
      (s2, (out1 ++ out2)%list)
  end.

Fixpoint allEnabled (es : list Event) (s : AppState) : bool :=
  match es with
  | [] => true
  | e :: es' => enabled e s && allEnabled es' (fst (handle e s))
  end.

(** The resolve-confirmation flow as the user sees it: the modal is closed,
    or it is open on a staged id. *)
Inductive Flow : Type :=
| Idle
| PendingConfirmation (id : string).

Definition flow (s : AppState) : Flow :=
  match showModal s, selectedReportId s with
  | true, Some id => PendingConfirmation id
  | _, _ => Idle
  end.

(** ** The board *)

Record DisplayCell : Type := mkCell {
  cellName : string;              (* the station's name *)
  cellClass : string;             (* the status put in [className] *)
  cellRemark : option string;     (* the remark paragraph, when rendered *)
  cellAge : option string;        (* the timestamp paragraph, when rendered *)
  cellResolve : option string     (* the id behind the Resolve button *)
}.

Definition greenCell (sec : string) : DisplayCell :=
  {| cellName := sec; cellClass := "green"; cellRemark := None;
     cellAge := None; cellResolve := None |}.

(** [reports.find((r) => r.loop === loop && r.section === section)] *)
Definition findReport (lp sec : string) (rs : list Report) : option Report :=
  find (fun r => (loop r =? lp)%string && (section r =? sec)%string) rs.

Section Board.

Variable manila : Z -> Z.
Variable now : Z.

Definition renderReport (sec : string) (report : Report) : DisplayCell :=
  if (status report =? "green")%string
  then {| cellName := sec; cellClass := status report; cellRemark := None;
          cellAge := None; cellResolve := None |}
  else {| cellName := sec; cellClass := status report;
          cellRemark :=
            if truthy (remark report) then Some (remark report) else None;
          cellAge :=
            match timestamp report with
            | Some _ => Some (timeAgo manila now (timestamp report))
            | None => None
            end;
          cellResolve := Some (_id report) |}.

Definition renderCell (rs : list Report) (lp sec : string) : DisplayCell :=
  match findReport lp sec rs with
  | Some report => renderReport sec report
  | None => greenCell sec
  end.

(** The dashboard: one block per [Object.entries(productionAreas)] pair. *)
Definition dashboard (rs : list Report) : list (string * list DisplayCell) :=
  map (fun p => (fst p, map (renderCell rs (fst p)) (snd p))) productionAreas.

End Board.

(** The catalog as a flat list of (group, station) pairs. *)
Definition catalogKeys : list (string * string) :=
  flat_map (fun p => map (fun sec => (fst p, sec)) (snd p)) productionAreas.

(** The board's cells in rendering order, each with its (group, station). *)
Definition cells (board : list (string * list DisplayCell))
  : list ((string * string) * DisplayCell) :=
  flat_map (fun p => map (fun c => ((fst p, cellName c), c)) (snd p)) board.

(** The board with every station green and bare. *)
Definition allGreen : list (string * list DisplayCell) :=
  map (fun p => (fst p, map greenCell (snd p))) productionAreas.


(** Two states that differ at most in a staged id hidden behind a closed
    modal. *)
Definition sameButHiddenId (s1 s2 : AppState) : Prop :=
  reports s1 = reports s2 /\
  selectedLoop s1 = selectedLoop s2 /\
  selectedSection s1 = selectedSection s2 /\
  remarkText s1 = remarkText s2 /\
  showModal s1 = showModal s2 /\
  (showModal s1 = true -> selectedReportId s1 = selectedReportId s2).

(** ** What the form offers

    The first select lists [Object.keys(productionAreas)], the second the
    sections of the selected group, and there is one button per status. *)

Definition statusButtons : list string := ["red"; "yellow"; "green"].

Definition offered (e : Event) (s : AppState) : bool :=
  enabled e s &&
  match e with
  | ChangeLoop newLoop => existsb (String.eqb newLoop) (map fst productionAreas)
  | ChangeSection sec =>
      existsb (String.eqb sec) (catalogSections (selectedLoop s))
  | ClickStatus st => existsb (String.eqb st) statusButtons
  | _ => true
  end.

Fixpoint allOffered (es : list Event) (s : AppState) : bool :=
  match es with
  | [] => true
  | e :: es' => offered e s && allOffered es' (fst (handle e s))
  end.

(** The events whose handler calls [setReports]: a fulfilled snapshot, the
    two pushes and an acknowledged submit. *)
Definition writesStore (e : Event) : bool :=
  match e with
  | SnapshotSettled (Fulfilled _) => true
  | NewReport _ => true
  | ResolveReport _ => true
  | ReportSettled (Fulfilled _) => true
  | _ => false
  end.

(** A snapshot, when the event delivers one, has pairwise distinct ids. *)
Definition distinctSnapshot (e : Event) : Prop :=
  match e with
  | SnapshotSettled (Fulfilled data) => NoDup (map _id data)
  | _ => True
  end.

(** * Properties *)

(** ** Elapsed-time label *)

Lemma label_seconds (d : Z) : d < 60 -> label d = show d ++ "s ago".
Proof.
  intros H. unfold label.
  destruct (Z.ltb_spec d 60); [reflexivity | lia].
Qed.

Lemma label_minutes (d : Z) :
  60 <= d < 3600 -> label d = show (d / 60) ++ "m ago".
Proof.
  intros H. unfold label.
  destruct (Z.ltb_spec d 60); [lia |].
  destruct (Z.ltb_spec d 3600); [reflexivity | lia].
Qed.

Lemma label_hours (d : Z) :
  3600 <= d < 86400 -> label d = show (d / 3600) ++ "hr ago".
Proof.
  intros H. unfold label.
  destruct (Z.ltb_spec d 60); [lia |].
  destruct (Z.ltb_spec d 3600); [lia |].
  destruct (Z.ltb_spec d 86400); [reflexivity | lia].
Qed.

Lemma label_days (d : Z) :
  86400 <= d -> label d = show (d / 86400) ++ "d ago".
Proof.
  intros H. unfold label.
  destruct (Z.ltb_spec d 60); [lia |].
  destruct (Z.ltb_spec d 3600); [lia |].
  destruct (Z.ltb_spec d 86400); [lia | reflexivity].
Qed.

(** From one minute on, the number in the label is at least 1, and below the
    size of the next unit. *)
Lemma label_quantity_bounds (d : Z) :
  (60 <= d < 3600 -> 1 <= d / 60 < 60) /\
  (3600 <= d < 86400 -> 1 <= d / 3600 < 24) /\
  (86400 <= d -> 1 <= d / 86400).
Proof.
  repeat split; intros.
  - apply Z.div_le_lower_bound; lia.
  - apply Z.div_lt_upper_bound; lia.
  - apply Z.div_le_lower_bound; lia.
  - apply Z.div_lt_upper_bound; lia.
  - apply Z.div_le_lower_bound; lia.
Qed.

Lemma manila_local_wallClock : wallClock 0 manila_local.
Proof. intros d. unfold manila_local. lia. Qed.

Lemma wallClock_diff (manila : Z -> Z) (shift now ts : Z) :
  wallClock shift manila ->
  diffInSeconds manila now ts = now / 1000 - ts / 1000.
Proof.
  intros H. unfold diffInSeconds. rewrite (H now), (H ts).
  replace (now / 1000 * 1000 + shift - (ts / 1000 * 1000 + shift))
    with ((now / 1000 - ts / 1000) * 1000) by lia.
  apply Z.div_mul. lia.
Qed.

(** The difference of the two clock seconds is the elapsed time in whole
    seconds, or one more. *)
Lemma clock_seconds_elapsed (now ts : Z) :
  (now - ts) / 1000 <= now / 1000 - ts / 1000 <= (now - ts) / 1000 + 1 /\
  ((now - ts) mod 1000 = 0 -> now / 1000 - ts / 1000 = (now - ts) / 1000).
Proof.
  split; [split | intros H]; Z.to_euclidean_division_equations; lia.
Qed.

(** C9, as stated, fails: the two instants are each cut to their clock
    second before they are subtracted.  With 59.001 seconds elapsed, that is
    59 whole seconds, the label is "1m ago" and not "59s ago". *)
Lemma timeAgo_rounds_each_instant :
  (60000 - 999) / 1000 = 59 /\
  timeAgo manila_local 60000 (Some 999) = "1m ago" /\
  timeAgo manila_local 60000 (Some 999) <> show 59 ++ "s ago".
Proof. repeat split. discriminate. Qed.

(** C9, amended: in a browser whose zone keeps a constant offset from Manila
    time, for a timestamp not later than the current time, let [n] be the
    number of seconds between the clock second of the timestamp and the clock
    second of the current time.  [n] is what [timeAgo] computes; it is the
    elapsed time in whole seconds or one more, and exactly the elapsed
    seconds when the elapsed time is a whole number of seconds.  The label
    is "{n}s ago" below one minute, "{n/60}m ago" below one hour,
    "{n/3600}hr ago" below one day and "{n/86400}d ago" from one day on, with
    floor division; so an elapsed time of exactly 45 s gives "45s ago", 130 s
    gives "2m ago", 7200 s gives "2hr ago" and 200000 s gives "2d ago". *)
Theorem timeAgo_label (manila : Z -> Z) (shift now ts : Z) :
  wallClock shift manila ->
  ts <= now ->
  let n := now / 1000 - ts / 1000 in
  diffInSeconds manila now ts = n /\
  0 <= n /\
  (now - ts) / 1000 <= n <= (now - ts) / 1000 + 1 /\
  ((now - ts) mod 1000 = 0 -> n = (now - ts) / 1000) /\
  (n < 60 -> timeAgo manila now (Some ts) = show n ++ "s ago") /\
  (60 <= n < 3600 -> timeAgo manila now (Some ts) = show (n / 60) ++ "m ago") /\
  (3600 <= n < 86400 ->
     timeAgo manila now (Some ts) = show (n / 3600) ++ "hr ago") /\
  (86400 <= n -> timeAgo manila now (Some ts) = show (n / 86400) ++ "d ago") /\
  (now - ts = 45000 -> timeAgo manila now (Some ts) = "45s ago") /\
  (now - ts = 130000 -> timeAgo manila now (Some ts) = "2m ago") /\
  (now - ts = 7200000 -> timeAgo manila now (Some ts) = "2hr ago") /\
  (now - ts = 200000000 -> timeAgo manila now (Some ts) = "2d ago").
Proof.
  intros Hm Hle n.
  assert (D := wallClock_diff manila shift now ts Hm). fold n in D.
  destruct (clock_seconds_elapsed now ts) as [B E]. fold n in B, E.
  assert (P : 0 <= n).
  { unfold n. assert (ts / 1000 <= now / 1000) by (apply Z.div_le_mono; lia).
    lia. }
  unfold timeAgo. rewrite D.
  assert (X : forall k, now - ts = k * 1000 -> n = k).
  { intros k Hk. rewrite E; rewrite Hk; [apply Z.div_mul | apply Z.mod_mul]; lia. }
  split; [reflexivity |]. split; [exact P |]. split; [exact B |].
  split; [exact E |].
  split; [apply label_seconds |].
  split; [apply label_minutes |].
  split; [apply label_hours |].
  split; [apply label_days |].
  split; [| split; [| split]]; intros H.
  - now rewrite (X 45).
  - now rewrite (X 130).
  - now rewrite (X 7200).
  - now rewrite (X 200000).
Qed.

Lemma timeAgo_label_witness :
  timeAgo manila_local 130500 (Some 500) = "2m ago".
Proof.
  destruct (timeAgo_label manila_local 0 130500 500)
    as (_ & _ & _ & _ & _ & _ & _ & _ & _ & H & _).
  - intros d. unfold manila_local. lia.
  - lia.
  - apply H. reflexivity.
Defined.

(** ** The store *)

Lemma replace_same_id (r x : Report) :
  _id (if (_id x =? _id r)%string then r else x) = _id x.
Proof.
  destruct (String.eqb_spec (_id x) (_id r)) as [E | E]; congruence.
Qed.

Lemma replace_ids (r : Report) (l : list Report) :
  map _id (map (fun x => if (_id x =? _id r)%string then r else x) l)
  = map _id l.
Proof.
  rewrite map_map. apply map_ext. intros x. apply replace_same_id.
Qed.

Lemma replace_twice (r : Report) (l : list Report) :
  let f := fun x => if (_id x =? _id r)%string then r else x in
  map f (map f l) = map f l.
Proof.
  intros f. rewrite map_map. apply map_ext. intros x. unfold f.
  destruct (String.eqb_spec (_id x) (_id r)) as [E | E].
  - now rewrite String.eqb_refl.
  - destruct (String.eqb_spec (_id x) (_id r)); congruence.
Qed.

Lemma existsb_id (id : string) (l : list Report) :
  existsb (fun r => (_id r =? id)%string) l = true <-> In id (map _id l).
Proof.
  rewrite existsb_exists, in_map_iff. split.
  - intros (x & Hx & E). apply String.eqb_eq in E. now exists x.
  - intros (x & E & Hx). exists x. split; [assumption |].
    now apply String.eqb_eq.
Qed.

(** The outcome of the [newReport] updater, by whether the id is known. *)
Lemma newReportUpdate_known (r : Report) (prev : list Report) :
  In (_id r) (map _id prev) ->
  newReportUpdate r prev
  = map (fun x => if (_id x =? _id r)%string then r else x) prev.
Proof.
  intros H. unfold newReportUpdate.
  destruct (existsb _ _) eqn:E; [reflexivity |].
  rewrite <- (replace_ids r) in H. apply existsb_id in H. congruence.
Qed.

Lemma map_unchanged {A : Type} (f : A -> A) (l : list A) :
  (forall x, In x l -> f x = x) -> map f l = l.
Proof.
  intros H. rewrite <- (map_id l) at 2. now apply map_ext_in.
Qed.

Lemma newReportUpdate_unknown (r : Report) (prev : list Report) :
  ~ In (_id r) (map _id prev) ->
  newReportUpdate r prev = (prev ++ [r])%list.
Proof.
  intros H. unfold newReportUpdate.
  destruct (existsb _ _) eqn:E.
  - apply existsb_id in E. rewrite replace_ids in E. contradiction.
  - f_equal. apply map_unchanged. intros x Hx.
    destruct (String.eqb_spec (_id x) (_id r)) as [Eq | Eq]; [| reflexivity].
    exfalso. apply H. rewrite <- Eq. now apply in_map.
Qed.

(** C5: the [newReport] upsert is idempotent: applying the same report twice
    leaves the store as one application does. *)
Theorem newReport_idempotent (newReport : Report) (prev : list Report) :
  newReportUpdate newReport (newReportUpdate newReport prev)
  = newReportUpdate newReport prev
  /\ fst (run [NewReport newReport; NewReport newReport] (setReports (fun _ => prev) initial))
     = fst (run [NewReport newReport] (setReports (fun _ => prev) initial)).
Proof.
  assert (H : newReportUpdate newReport (newReportUpdate newReport prev)
              = newReportUpdate newReport prev).
  { assert (K : In (_id newReport) (map _id (newReportUpdate newReport prev))).
    { unfold newReportUpdate. destruct (existsb _ _) eqn:E.
      - now apply existsb_id in E.
      - rewrite map_app. apply in_or_app. right. now left. }
    rewrite (newReportUpdate_known _ _ K).
    unfold newReportUpdate. destruct (existsb _ _) eqn:E.
    - apply replace_twice.
    - rewrite map_app, replace_twice. simpl.
      now rewrite String.eqb_refl. }
  split; [exact H |].
  simpl. unfold setReports. simpl. now rewrite H.
Qed.

(** The acknowledged submit is idempotent as well. *)
Lemma sendReport_idempotent (data : Report) (prev : list Report) :
  sendReportUpdate data (sendReportUpdate data prev)
  = sendReportUpdate data prev.
Proof.
  unfold sendReportUpdate. rewrite filter_app. simpl.
  rewrite String.eqb_refl. simpl. rewrite app_nil_r. f_equal.
  induction prev as [| x l IH]; [reflexivity |].
  simpl. destruct (negb (_id x =? _id data)%string) eqn:E; simpl.
  - now rewrite E, IH.
  - exact IH.
Qed.

(** Distinct ids sit at distinct positions. *)
Lemma other_position_other_id (rs : list Report) (i j : nat) (r q : Report) :
  NoDup (map _id rs) ->
  nth_error rs i = Some r ->
  nth_error rs j = Some q ->
  j <> i ->
  _id q <> _id r.
Proof.
  intros H Hi Hj Hne E. apply Hne.
  apply (proj1 (NoDup_nth_error (map _id rs)) H).
  - rewrite length_map. apply nth_error_Some. congruence.
  - rewrite !nth_error_map, Hi, Hj. simpl. now rewrite E.
Qed.

(** C6, as stated, fails on a store that holds the resolved id more than
    once (a snapshot is stored as received): the listener rewrites every
    entry under the id, so an entry other than the one looked at changes
    too. *)
Lemma resolve_rewrites_every_match :
  nth_error
    (reports
       (fst (run [SnapshotSettled
                    (Fulfilled
                       [mkReport "r1" "Loop 1" "A&T" "red" "Ann" "jam" (Some 5);
                        mkReport "r1" "Loop 1" "TMA" "yellow" "Bob" "slow" (Some 7)])]
                 initial))) 1
  = Some (mkReport "r1" "Loop 1" "TMA" "yellow" "Bob" "slow" (Some 7)) /\
  nth_error
    (reports
       (fst (run [SnapshotSettled
                    (Fulfilled
                       [mkReport "r1" "Loop 1" "A&T" "red" "Ann" "jam" (Some 5);
                        mkReport "r1" "Loop 1" "TMA" "yellow" "Bob" "slow" (Some 7)]);
                  ResolveReport "r1"]
                 initial))) 1
  = Some (mkReport "r1" "Loop 1" "TMA" "green" "Bob" "" None) /\
  nth_error
    (reports
       (fst (run [SnapshotSettled
                    (Fulfilled
                       [mkReport "r1" "Loop 1" "A&T" "red" "Ann" "jam" (Some 5);
                        mkReport "r1" "Loop 1" "TMA" "yellow" "Bob" "slow" (Some 7)]);
                  ResolveReport "r1"]
                 initial))) 1
  <> nth_error
       (reports
          (fst (run [SnapshotSettled
                       (Fulfilled
                          [mkReport "r1" "Loop 1" "A&T" "red" "Ann" "jam" (Some 5);
                           mkReport "r1" "Loop 1" "TMA" "yellow" "Bob" "slow"
                             (Some 7)])]
                    initial))) 1.
Proof. repeat split. discriminate. Qed.

(** C6, amended: handling the resolveReport event for an id that an entry of
    the store carries issues nothing and touches only the store.  That
    entry, at its own position, gets status "green", the empty remark and a
    null timestamp and keeps its id, key and assignee; the store keeps its
    length; every entry under the id is rewritten in this way and every
    entry under another id is left as it was.  When the ids of the store are
    pairwise distinct, every other entry is left as it was. *)
Theorem resolveReport_present (s : AppState) (id : string) (i : nat)
        (r : Report) :
  nth_error (reports s) i = Some r ->
  _id r = id ->
  let s' := fst (handle (ResolveReport id) s) in
  snd (handle (ResolveReport id) s) = [] /\
  s' = setReports (fun _ => reports s') s /\
  (exists r',
      nth_error (reports s') i = Some r' /\
      status r' = "green" /\ remark r' = "" /\ timestamp r' = None /\
      _id r' = _id r /\ key r' = key r /\ assigned r' = assigned r) /\
  List.length (reports s') = List.length (reports s) /\
  (forall j q, nth_error (reports s) j = Some q ->
               nth_error (reports s') j
               = Some (if (_id q =? id)%string then resolved q else q)) /\
  (forall j q, nth_error (reports s) j = Some q -> _id q <> id ->
               nth_error (reports s') j = Some q) /\
  (NoDup (map _id (reports s)) ->
   forall j q, j <> i -> nth_error (reports s) j = Some q ->
               nth_error (reports s') j = Some q).
Proof.
  intros Hi Hid s'.
  assert (K : forall j q, nth_error (reports s) j = Some q ->
                          nth_error (reports s') j
                          = Some (if (_id q =? id)%string then resolved q else q)).
  { intros j q Hj. unfold s'. simpl. unfold resolveReportUpdate.
    now rewrite nth_error_map, Hj. }
  assert (F : forall j q, nth_error (reports s) j = Some q -> _id q <> id ->
                          nth_error (reports s') j = Some q).
  { intros j q Hj Hq. rewrite (K j q Hj).
    apply String.eqb_neq in Hq. now rewrite Hq. }
  split; [reflexivity |]. split; [reflexivity |].
  split; [| split; [| split; [exact K | split; [exact F |]]]].
  - exists (resolved r). rewrite (K i r Hi).
    apply String.eqb_eq in Hid. rewrite Hid. repeat split.
  - unfold s'. simpl. apply length_map.
  - intros H j q Hne Hj. apply (F j q Hj). rewrite <- Hid.
    now apply (other_position_other_id (reports s) i j).
Qed.

Lemma resolveReport_present_witness :
  exists r',
    nth_error
      (reports
         (fst (handle (ResolveReport "r1")
                 (setReports
                    (fun _ =>
                       [mkReport "r0" "Loop 1" "TMA" "yellow" "Ann" "slow" (Some 5);
                        mkReport "r1" "Loop 1" "A&T" "red" "Bob" "jam" (Some 7)])
                    initial)))) 1
    = Some r' /\ status r' = "green".
Proof.
  destruct (resolveReport_present
              (setReports
                 (fun _ =>
                    [mkReport "r0" "Loop 1" "TMA" "yellow" "Ann" "slow" (Some 5);
                     mkReport "r1" "Loop 1" "A&T" "red" "Bob" "jam" (Some 7)])
                 initial)
              "r1" 1 (mkReport "r1" "Loop 1" "A&T" "red" "Bob" "jam" (Some 7)))
    as (_ & _ & (r' & H1 & H2 & _) & _).
  - reflexivity.
  - reflexivity.
  - exists r'. split; assumption.
Defined.

Lemma setReports_same (s : AppState) (f : list Report -> list Report) :
  f (reports s) = reports s -> setReports f s = s.
Proof.
  intros H. destruct s. unfold setReports. simpl in *. now rewrite H.
Qed.

(** C7: resolving an id that no entry carries leaves the store, and the whole
    component state, exactly as it was; the handler is a total function and
    issues nothing. *)
Theorem resolveReport_absent (s : AppState) (id : string) :
  (forall r, In r (reports s) -> _id r <> id) ->
  resolveReportUpdate id (reports s) = reports s /\
  handle (ResolveReport id) s = (s, []).
Proof.
  intros H.
  assert (K : resolveReportUpdate id (reports s) = reports s).
  { unfold resolveReportUpdate. apply map_unchanged. intros x Hx.
    apply H, String.eqb_neq in Hx. now rewrite Hx. }
  split; [exact K |].
  simpl. now rewrite setReports_same.
Qed.

Lemma resolveReport_absent_witness :
  handle (ResolveReport "zz")
    (setReports (fun _ => [mkReport "r1" "Loop 1" "A&T" "red" "Bob" "jam" (Some 7)])
       initial)
  = (setReports (fun _ => [mkReport "r1" "Loop 1" "A&T" "red" "Bob" "jam" (Some 7)])
       initial, []).
Proof.
  apply (resolveReport_absent
           (setReports
              (fun _ => [mkReport "r1" "Loop 1" "A&T" "red" "Bob" "jam" (Some 7)])
              initial) "zz").
  simpl. intros r [E | []]. subst r. simpl. discriminate.
Defined.

(** ** The board *)

Section BoardFacts.

Variable manila : Z -> Z.
Variable now : Z.

Lemma renderReport_name (sec : string) (r : Report) :
  cellName (renderReport manila now sec r) = sec.
Proof.
  unfold renderReport. now destruct (status r =? "green")%string.
Qed.

Lemma renderCell_name (rs : list Report) (lp sec : string) :
  cellName (renderCell manila now rs lp sec) = sec.
Proof.
  unfold renderCell. destruct (findReport lp sec rs).
  - apply renderReport_name.
  - reflexivity.
Qed.

Lemma findReport_none (rs : list Report) (lp sec : string) :
  (forall r, In r rs -> key r <> (lp, sec)) -> findReport lp sec rs = None.
Proof.
  intros H. unfold findReport.
  destruct (find _ rs) as [r |] eqn:E; [| reflexivity].
  apply find_some in E. destruct E as [Hin Hk].
  apply andb_true_iff in Hk. destruct Hk as [H1 H2].
  apply String.eqb_eq in H1, H2.
  exfalso. apply (H r Hin). unfold key. now rewrite H1, H2.
Qed.

Lemma findReport_first (l1 l2 : list Report) (r : Report) (lp sec : string) :
  (forall q, In q l1 -> key q <> (lp, sec)) ->
  key r = (lp, sec) ->
  findReport lp sec (l1 ++ r :: l2) = Some r.
Proof.
  intros H Hr. unfold findReport.
  induction l1 as [| q l1 IH]; simpl.
  - injection Hr as H1 H2. rewrite H1, H2, !String.eqb_refl. reflexivity.
  - destruct ((loop q =? lp)%string && (section q =? sec)%string) eqn:E.
    + apply andb_true_iff in E. destruct E as [H1 H2].
      apply String.eqb_eq in H1, H2.
      exfalso. apply (H q); [now left |]. unfold key. now rewrite H1, H2.
    + apply IH. intros q' Hq'. apply H. now right.
Qed.

Lemma dashboard_cells (rs : list Report) :
  cells (dashboard manila now rs)
  = map (fun k => (k, renderCell manila now rs (fst k) (snd k))) catalogKeys.
Proof.
  unfold cells, dashboard, catalogKeys.
  induction productionAreas as [| [lp secs] rest IH]; [reflexivity |].
  simpl. rewrite map_app, IH. f_equal.
  rewrite !map_map. apply map_ext. intros sec. simpl.
  now rewrite renderCell_name.
Qed.

Lemma dashboard_names (rs : list Report) :
  map (fun p => (fst p, map cellName (snd p))) (dashboard manila now rs)
  = productionAreas.
Proof.
  unfold dashboard. rewrite map_map.
  etransitivity; [| apply map_id].
  apply map_ext. intros [lp secs]. simpl. f_equal.
  rewrite map_map. etransitivity; [| apply map_id].
  apply map_ext. intros sec. apply renderCell_name.
Qed.

Lemma cell_remark_shown (rs : list Report) (lp sec x : string) :
  cellRemark (renderCell manila now rs lp sec) = Some x <->
  exists r, findReport lp sec rs = Some r /\
            status r <> "green" /\ remark r = x /\ x <> "".
Proof.
  unfold renderCell, renderReport, truthy. split.
  - destruct (findReport lp sec rs) as [r |]; [| discriminate].
    destruct (String.eqb_spec (status r) "green"); [discriminate |].
    simpl. destruct (String.eqb_spec (remark r) ""); simpl; [discriminate |].
    intros [= E]. exists r. subst x. auto.
  - intros (r & -> & Hs & Hr & Hx). subst x.
    destruct (String.eqb_spec (status r) "green"); [contradiction |].
    simpl. destruct (String.eqb_spec (remark r) ""); [contradiction |].
    reflexivity.
Qed.

Lemma cell_age_shown (rs : list Report) (lp sec x : string) :
  cellAge (renderCell manila now rs lp sec) = Some x <->
  exists r ts, findReport lp sec rs = Some r /\
               status r <> "green" /\ timestamp r = Some ts /\
               x = label (diffInSeconds manila now ts).
Proof.
  unfold renderCell, renderReport. split.
  - destruct (findReport lp sec rs) as [r |]; [| discriminate].
    destruct (String.eqb_spec (status r) "green"); [discriminate |].
    simpl. destruct (timestamp r) as [ts |] eqn:E; [| discriminate].
    intros [= <-]. exists r, ts. auto.
  - intros (r & ts & -> & Hs & Ht & ->).
    destruct (String.eqb_spec (status r) "green"); [contradiction |].
    simpl. now rewrite Ht.
Qed.

End BoardFacts.

(** C8: for every store, in whatever order its entries are, the dashboard
    has one cell per catalog station, groups and stations in declaration
    order; a station without a store entry is green with no remark and no age
    label; a remark is shown exactly when the station's entry is not green
    and its remark is not empty, an age label exactly when the entry is not
    green and its timestamp is not null. *)
Theorem dashboard_projection (manila : Z -> Z) (now : Z) (rs : list Report) :
  map (fun p => (fst p, map cellName (snd p))) (dashboard manila now rs)
  = productionAreas /\
  cells (dashboard manila now rs)
  = map (fun k => (k, renderCell manila now rs (fst k) (snd k))) catalogKeys /\
  (forall lp sec,
      (forall r, In r rs -> key r <> (lp, sec)) ->
      renderCell manila now rs lp sec = greenCell sec) /\
  (forall lp sec x,
      cellRemark (renderCell manila now rs lp sec) = Some x <->
      exists r, findReport lp sec rs = Some r /\
                status r <> "green" /\ remark r = x /\ x <> "") /\
  (forall lp sec x,
      cellAge (renderCell manila now rs lp sec) = Some x <->
      exists r ts, findReport lp sec rs = Some r /\
                   status r <> "green" /\ timestamp r = Some ts /\
                   x = timeAgo manila now (Some ts)).
Proof.
  split; [apply dashboard_names |].
  split; [apply dashboard_cells |].
  split; [| split].
  - intros lp sec H. unfold renderCell. now rewrite findReport_none.
  - apply cell_remark_shown.
  - apply cell_age_shown.
Qed.

(** C10: when several entries carry a station's key, the station's cell is
    rendered from the first of them in store order, whatever follows it. *)
Theorem dashboard_first_match (manila : Z -> Z) (now : Z)
        (l1 l2 : list Report) (r : Report) (lp sec : string) :
  (forall q, In q l1 -> key q <> (lp, sec)) ->
  key r = (lp, sec) ->
  findReport lp sec (l1 ++ r :: l2) = Some r /\
  renderCell manila now (l1 ++ r :: l2) lp sec = renderReport manila now sec r.
Proof.
  intros H Hr.
  assert (K := findReport_first l1 l2 r lp sec H Hr).
  split; [exact K |]. unfold renderCell. now rewrite K.
Qed.

Lemma dashboard_first_match_witness :
  renderCell manila_local 100000
    ([mkReport "r0" "Loop 1" "TMA" "yellow" "Ann" "slow" (Some 5)] ++
      mkReport "r1" "Loop 1" "A&T" "red" "Bob" "jam" (Some 7000) ::
      [mkReport "r2" "Loop 1" "A&T" "yellow" "Cy" "late" (Some 9000)])
    "Loop 1" "A&T"
  = mkCell "A&T" "red" (Some "jam") (Some "1m ago") (Some "r1").
Proof.
  refine (eq_trans
            (proj2 (dashboard_first_match manila_local 100000
                      [mkReport "r0" "Loop 1" "TMA" "yellow" "Ann" "slow" (Some 5)]
                      [mkReport "r2" "Loop 1" "A&T" "yellow" "Cy" "late" (Some 9000)]
                      (mkReport "r1" "Loop 1" "A&T" "red" "Bob" "jam" (Some 7000))
                      "Loop 1" "A&T" _ _)) _).
  - intros q [E | []]. subst q. discriminate.
  - reflexivity.
  - reflexivity.
Defined.

(** ** Uniqueness in the store *)

(** Dropping the entries that carry one id keeps the remaining ids
    distinct. *)
Lemma other_ids_unique (id : string) (prev : list Report) :
  NoDup (map _id prev) ->
  NoDup (map _id (filter (fun r => negb (_id r =? id)%string) prev)).
Proof.
  intros H. induction prev as [| x rest IH]; [exact H |].
  apply NoDup_cons_iff in H. destruct H as [Hx Hrest]. simpl.
  destruct (_id x =? id)%string; simpl; [now apply IH |].
  apply NoDup_cons; [| now apply IH].
  rewrite in_map_iff. intros (z & Ez & Hz).
  apply filter_In in Hz. apply Hx. rewrite <- Ez. now apply in_map.
Qed.


Lemma upsert_ids_unique (u : Upsert) (prev : list Report) :
  NoDup (map _id prev) -> NoDup (map _id (upsert u prev)).
Proof.
  intros H. destruct u as [r | r]; simpl.
  - unfold newReportUpdate. destruct (existsb _ _) eqn:E.
    + now rewrite replace_ids.
    + rewrite map_app, replace_ids. simpl.
      apply NoDup_app; [assumption | constructor; [easy | constructor] |].
      intros a Ha [Hb | []]. subst a.
      rewrite <- (replace_ids r) in Ha. apply existsb_id in Ha. congruence.
  - unfold sendReportUpdate. rewrite map_app. simpl.
    apply NoDup_app;
      [now apply other_ids_unique | constructor; [easy | constructor] |].
    intros a Ha [Hb | []]. subst a.
    apply in_map_iff in Ha. destruct Ha as (z & Ez & Hz).
    apply filter_In in Hz. destruct Hz as [_ Hz].
    apply negb_true_iff, String.eqb_neq in Hz. contradiction.
Qed.


Lemma upsert_has_payload (u : Upsert) (prev : list Report) :
  In (payload u) (upsert u prev).
Proof.
  destruct u as [r | r]; simpl.
  - unfold newReportUpdate. destruct (existsb _ _) eqn:E.
    + apply existsb_exists in E. destruct E as (y & Hy & Ey).
      apply String.eqb_eq in Ey. apply in_map_iff in Hy.
      destruct Hy as (x & Ex & Hx).
      destruct (String.eqb_spec (_id x) (_id r)) as [Eq | Eq].
      * subst y. apply in_map_iff. exists x. split; [| exact Hx].
        apply String.eqb_eq in Eq. now rewrite Eq.
      * subst y. contradiction.
    + apply in_or_app. right. now left.
  - unfold sendReportUpdate. apply in_or_app. right. now left.
Qed.










(** ** Snapshot failure *)

Lemma dashboard_empty (manila : Z -> Z) (now : Z) :
  dashboard manila now [] = allGreen.
Proof. reflexivity. Qed.

(** C2, as stated, fails: the snapshot promise has no rejection callback.
    When the fetch is rejected the component changes nothing and reports
    nothing, and the board is the all-green board, the very board shown after
    a successful fetch of an empty list. *)
Lemma snapshot_failure_silent :
  handle (SnapshotSettled (Rejected "Network Error")) initial = (initial, []) /\
  dashboard manila_local 0
    (reports (fst (handle (SnapshotSettled (Rejected "Network Error")) initial)))
  = allGreen /\
  dashboard manila_local 0
    (reports (fst (handle (SnapshotSettled (Rejected "Network Error")) initial)))
  = dashboard manila_local 0
      (reports (fst (handle (SnapshotSettled (Fulfilled [])) initial))).
Proof. repeat split. Qed.

(** C2, amended: a failed snapshot fetch leaves the report store as it was;
    at startup the store is empty, so the board renders every catalog station
    green with no remark and no age label, as it does after a successful
    fetch of an empty list. *)
Theorem snapshot_failure_board (manila : Z -> Z) (now : Z) (s : AppState)
        (error : JsError) :
  reports (fst (handle (SnapshotSettled (Rejected error)) s)) = reports s /\
  dashboard manila now
    (reports (fst (handle (SnapshotSettled (Rejected error)) initial)))
  = allGreen /\
  dashboard manila now
    (reports (fst (handle (SnapshotSettled (Rejected error)) initial)))
  = dashboard manila now
      (reports (fst (handle (SnapshotSettled (Fulfilled [])) initial))).
Proof. repeat split. Qed.

(** ** The resolve-confirmation flow *)

(** Whenever the modal is open, an id is staged. *)
Lemma handle_modal_has_id (e : Event) (s : AppState) :
  (showModal s = true -> selectedReportId s <> None) ->
  showModal (fst (handle e s)) = true ->
  selectedReportId (fst (handle e s)) <> None.
Proof.
  intros H.
  destruct e as [[d |] | r | id | l | c | t | st | [d |] | id | | [u |] | ];
    simpl; try exact H; try discriminate.
Qed.

Lemma run_modal_has_id (es : list Event) (s : AppState) :
  (showModal s = true -> selectedReportId s <> None) ->
  showModal (fst (run es s)) = true ->
  selectedReportId (fst (run es s)) <> None.
Proof.
  revert s. induction es as [| e es IH]; intros s H; [exact H |].
  simpl. assert (K := handle_modal_has_id e s H).
  destruct (handle e s) as [s1 out1]. specialize (IH s1 K).
  now destruct (run es s1).
Qed.

(** C3, as stated, fails on the failure of the resolve request: the [catch]
    block only logs, so the modal stays open on the staged id. *)
Lemma resolve_failure_stays_pending :
  flow (fst (run [SnapshotSettled
                    (Fulfilled
                       [mkReport "r1" "Loop 1" "A&T" "red" "Ann" "jam" (Some 5)]);
                  ClickResolve "r1"; ClickYes] initial))
  = PendingConfirmation "r1" /\
  snd (run [SnapshotSettled
              (Fulfilled
                 [mkReport "r1" "Loop 1" "A&T" "red" "Ann" "jam" (Some 5)]);
            ClickResolve "r1"; ClickYes] initial)
  = [PostResolve "r1"] /\
  flow (fst (run [SnapshotSettled
                    (Fulfilled
                       [mkReport "r1" "Loop 1" "A&T" "red" "Ann" "jam" (Some 5)]);
                  ClickResolve "r1"; ClickYes;
                  ResolveSettled (Rejected "Network Error")] initial))
  = PendingConfirmation "r1" /\
  flow (fst (run [SnapshotSettled
                    (Fulfilled
                       [mkReport "r1" "Loop 1" "A&T" "red" "Ann" "jam" (Some 5)]);
                  ClickResolve "r1"; ClickYes;
                  ResolveSettled (Rejected "Network Error")] initial))
  <> Idle.
Proof. repeat split. discriminate. Qed.

(** C3, amended: the flow is [Idle] (modal closed) or
    [PendingConfirmation id] (modal open on [id]), and a reachable state with
    the modal open always has an id staged.  A click on a Resolve button
    leads to [PendingConfirmation] of that id from either state; a fulfilled
    resolve request and Cancel lead to [Idle]; a rejected resolve request
    changes nothing in the state, so the flow stays where it is, and logs
    the error with [console.error]; every other event leaves the flow where
    it is. *)
Theorem flow_transitions (e : Event) (s : AppState) (es : list Event) :
  match e with
  | ClickResolve id => flow (fst (handle e s)) = PendingConfirmation id
  | ResolveSettled (Fulfilled _) => flow (fst (handle e s)) = Idle
  | ClickCancel => flow (fst (handle e s)) = Idle
  | ResolveSettled (Rejected error) =>
      flow (fst (handle e s)) = flow s /\
      handle e s = (s, [ConsoleError "❌ Error resolving report:" error])
  | _ => flow (fst (handle e s)) = flow s
  end /\
  match flow (fst (run es initial)) with
  | Idle => showModal (fst (run es initial)) = false
  | PendingConfirmation id =>
      showModal (fst (run es initial)) = true /\
      selectedReportId (fst (run es initial)) = Some id
  end.
Proof.
  split.
  - destruct e as [[d |] | r | id | l | c | t | st | [d |] | id | | [u | err] | ];
      try reflexivity.
    split; reflexivity.
  - assert (K := run_modal_has_id es initial).
    unfold flow. destruct (showModal (fst (run es initial))).
    + destruct (selectedReportId (fst (run es initial))).
      * split; reflexivity.
      * exfalso. apply K; [discriminate | reflexivity | reflexivity].
    + reflexivity.
Qed.

(** ** Cancel *)

Lemma handle_sameButHiddenId (e : Event) (s1 s2 : AppState) :
  sameButHiddenId s1 s2 ->
  enabled e s1 = true ->
  enabled e s2 = true /\
  snd (handle e s1) = snd (handle e s2) /\
  sameButHiddenId (fst (handle e s1)) (fst (handle e s2)).
Proof.
  intros (Hr & Hl & Hs & Ht & Hm & Hid) He.
  destruct e as [[d |] | r | id | l | c | t | st | [d |] | id | | [u |] | ];
    simpl in *; try specialize (Hid He);
    unfold sameButHiddenId, sendReport, resolveReport; simpl;
    repeat split; try congruence; try assumption; try discriminate.
  now rewrite Hid.
Qed.

Lemma run_sameButHiddenId (es : list Event) (s1 s2 : AppState) :
  sameButHiddenId s1 s2 ->
  allEnabled es s1 = true ->
  allEnabled es s2 = true /\
  snd (run es s1) = snd (run es s2) /\
  sameButHiddenId (fst (run es s1)) (fst (run es s2)).
Proof.
  revert s1 s2. induction es as [| e es IH]; intros s1 s2 H He.
  - split; [reflexivity | split; [reflexivity | exact H]].
  - simpl in He. apply andb_true_iff in He. destruct He as [He Hes].
    destruct (handle_sameButHiddenId e s1 s2 H He) as (He2 & Hout & Hnext).
    simpl. rewrite He2.
    destruct (handle e s1) as [a1 o1], (handle e s2) as [a2 o2]. simpl in *.
    destruct (IH a1 a2 Hnext Hes) as (Hes2 & Houts & Hfinal).
    rewrite Hes2.
    destruct (run es a1) as [b1 p1], (run es a2) as [b2 p2].
    simpl in *. subst. split; [reflexivity | split; [reflexivity | exact Hfinal]].
Qed.

Lemma sameButHiddenId_flow (s1 s2 : AppState) :
  sameButHiddenId s1 s2 -> flow s1 = flow s2.
Proof.
  intros (_ & _ & _ & _ & Hm & Hid). unfold flow. rewrite <- Hm.
  destruct (showModal s1); [now rewrite Hid | reflexivity].
Qed.

(** C4, as stated, fails in one respect: Cancel only closes the modal;
    the staged id stays in [selectedReportId]. *)
Lemma cancel_keeps_staged_id :
  selectedReportId (fst (run [ClickResolve "r1"; ClickCancel] initial))
  = Some "r1" /\
  selectedReportId (fst (run [ClickResolve "r1"; ClickCancel] initial))
  <> None.
Proof. split; [reflexivity | discriminate]. Qed.

(** C4, amended: in every state Cancel closes the modal, so the flow ends in
    [Idle]; it issues no request and leaves the report store unchanged.  It
    does not reset [selectedReportId], but the id left there is inert: every
    later sequence of events issues the same effects and reaches the same
    store and the same flow state as it would had the id been cleared. *)
Theorem cancel_closes_modal (s : AppState) (es : list Event) :
  let s' := fst (handle ClickCancel s) in
  let cleared := setSelectedReportId None s' in
  allEnabled es s' = true ->
  snd (handle ClickCancel s) = [] /\
  reports s' = reports s /\
  showModal s' = false /\
  flow s' = Idle /\
  selectedReportId s' = selectedReportId s /\
  allEnabled es cleared = true /\
  snd (run es s') = snd (run es cleared) /\
  reports (fst (run es s')) = reports (fst (run es cleared)) /\
  flow (fst (run es s')) = flow (fst (run es cleared)).
Proof.
  intros s' cleared He.
  assert (H : sameButHiddenId s' cleared).
  { unfold sameButHiddenId, cleared, s'. simpl. repeat split. discriminate. }
  destruct (run_sameButHiddenId es s' cleared H He) as (He2 & Hout & Hfinal).
  repeat split; try assumption.
  - apply Hfinal.
  - now apply sameButHiddenId_flow.
Qed.

Lemma cancel_closes_modal_witness :
  flow (fst (handle ClickCancel (confirmResolve "r1" initial))) = Idle /\
  snd (run [ClickResolve "r2"; ClickYes]
           (fst (handle ClickCancel (confirmResolve "r1" initial))))
  = snd (run [ClickResolve "r2"; ClickYes]
             (setSelectedReportId None
                (fst (handle ClickCancel (confirmResolve "r1" initial))))).
Proof.
  destruct (cancel_closes_modal (confirmResolve "r1" initial)
              [ClickResolve "r2"; ClickYes])
    as (_ & _ & _ & H1 & _ & _ & H2 & _).
  - reflexivity.
  - split; [exact H1 | exact H2].
Defined.

(** * Further properties of the component *)

(** ** How the store updates compose *)

Lemma filter_other_ids_replace (r : Report) (prev : list Report) :
  filter (fun q => negb (_id q =? _id r)%string)
         (map (fun x => if (_id x =? _id r)%string then r else x) prev)
  = filter (fun q => negb (_id q =? _id r)%string) prev.
Proof.
  induction prev as [| x rest IH]; [reflexivity |].
  simpl. destruct (String.eqb_spec (_id x) (_id r)) as [E | E]; simpl.
  - rewrite String.eqb_refl. simpl. exact IH.
  - apply String.eqb_neq in E. rewrite E. simpl. now rewrite IH.
Qed.

Lemma replace_other_ids (r : Report) (prev : list Report) :
  let others := filter (fun q => negb (_id q =? _id r)%string) prev in
  map (fun x => if (_id x =? _id r)%string then r else x) others = others.
Proof.
  intros others. apply map_unchanged. intros x Hx.
  apply filter_In in Hx. destruct Hx as [_ Hx].
  apply negb_true_iff in Hx. now rewrite Hx.
Qed.

(** X1: a push of the report that an acknowledged submit has just stored
    changes nothing, and an acknowledgement arriving after its own push leaves
    the store as the acknowledgement alone does. *)
Theorem ack_and_echo (r : Report) (prev : list Report) :
  newReportUpdate r (sendReportUpdate r prev) = sendReportUpdate r prev /\
  sendReportUpdate r (newReportUpdate r prev) = sendReportUpdate r prev.
Proof.
  split.
  - rewrite newReportUpdate_known.
    + unfold sendReportUpdate. rewrite map_app, replace_other_ids. simpl.
      now rewrite String.eqb_refl.
    + unfold sendReportUpdate. rewrite map_app. apply in_or_app.
      right. now left.
  - unfold sendReportUpdate at 1. unfold newReportUpdate.
    destruct (existsb _ _).
    + now rewrite filter_other_ids_replace.
    + rewrite filter_app, filter_other_ids_replace. simpl.
      rewrite String.eqb_refl. simpl. now rewrite app_nil_r.
Qed.

(** X2: after an acknowledged submit the acknowledged report is the only
    entry under its id, even in a store that held that id several times; the
    entries under other ids are exactly those the store had. *)
Theorem ack_single_entry (data : Report) (prev : list Report) :
  filter (fun q => (_id q =? _id data)%string) (sendReportUpdate data prev)
  = [data] /\
  (forall q, _id q <> _id data ->
             (In q (sendReportUpdate data prev) <-> In q prev)) /\
  (List.length (sendReportUpdate data prev) <= S (List.length prev))%nat.
Proof.
  unfold sendReportUpdate. split; [| split; [intros q Hq; split |]].
  - rewrite filter_app. simpl. rewrite String.eqb_refl.
    replace (filter _ (filter _ prev)) with (@nil Report); [reflexivity |].
    symmetry. induction prev as [| x rest IH]; [reflexivity |].
    simpl. destruct (String.eqb_spec (_id x) (_id data)) as [E | E]; simpl.
    + exact IH.
    + apply String.eqb_neq in E. now rewrite E.
  - intros H. apply in_app_or in H. destruct H as [H | [H | []]].
    + apply filter_In in H. tauto.
    + subst q. congruence.
  - intros H. apply in_or_app. left. apply filter_In. split; [exact H |].
    now apply negb_true_iff, String.eqb_neq.
  - rewrite length_app. simpl.
    assert (K := filter_length_le (fun r => negb (_id r =? _id data)%string) prev).
    lia.
Qed.

(** X3: resolving is idempotent, and resolutions of two ids commute. *)
Theorem resolve_idempotent_commutes (a b : string) (prev : list Report) :
  resolveReportUpdate a (resolveReportUpdate a prev) = resolveReportUpdate a prev
  /\ resolveReportUpdate a (resolveReportUpdate b prev)
     = resolveReportUpdate b (resolveReportUpdate a prev).
Proof.
  unfold resolveReportUpdate. rewrite !map_map. split.
  - apply map_ext. intros x.
    destruct (String.eqb_spec (_id x) a) as [E | E]; simpl.
    + apply String.eqb_eq in E. now rewrite E.
    + apply String.eqb_neq in E. now rewrite E.
  - apply map_ext. intros x.
    destruct (_id x =? a)%string eqn:Ea, (_id x =? b)%string eqn:Eb;
      simpl; rewrite ?Ea, ?Eb; reflexivity.
Qed.

Lemma resolve_same_id (id : string) (x : Report) :
  _id (if (_id x =? id)%string then resolved x else x) = _id x.
Proof. now destruct (_id x =? id)%string. Qed.

Lemma resolve_same_key (id : string) (x : Report) :
  key (if (_id x =? id)%string then resolved x else x) = key x.
Proof. now destruct (_id x =? id)%string. Qed.

Lemma resolve_ids (id : string) (prev : list Report) :
  map _id (resolveReportUpdate id prev) = map _id prev.
Proof.
  unfold resolveReportUpdate. rewrite map_map. apply map_ext.
  intros x. apply resolve_same_id.
Qed.

(** X4: a push updates in place: the store keeps every entry at its
    position, those under the pushed id replaced by the pushed report, and
    grows by one entry exactly when the id is new. *)
Theorem push_in_place (r : Report) (prev : list Report) :
  (forall i x, nth_error prev i = Some x ->
               nth_error (newReportUpdate r prev) i
               = Some (if (_id x =? _id r)%string then r else x)) /\
  List.length (newReportUpdate r prev)
  = if existsb (fun q => (_id q =? _id r)%string) prev
    then List.length prev else S (List.length prev).
Proof.
  split.
  - intros i x Hx. unfold newReportUpdate.
    assert (K : nth_error
                  (map (fun q => if (_id q =? _id r)%string then r else q) prev) i
                = Some (if (_id x =? _id r)%string then r else x))
      by now rewrite nth_error_map, Hx.
    destruct (existsb _ _); [exact K |].
    rewrite nth_error_app1; [exact K |].
    rewrite length_map. apply nth_error_Some. congruence.
  - destruct (existsb (fun q => (_id q =? _id r)%string) prev) eqn:E.
    + apply existsb_id in E. rewrite newReportUpdate_known by exact E.
      apply length_map.
    + rewrite newReportUpdate_unknown.
      * rewrite length_app. simpl. lia.
      * intros K. apply existsb_id in K. congruence.
Qed.

(** ** Distinct ids as an invariant of the component *)

Lemma handle_ids_unique (e : Event) (s : AppState) :
  NoDup (map _id (reports s)) ->
  distinctSnapshot e ->
  NoDup (map _id (reports (fst (handle e s)))).
Proof.
  intros H Hd.
  destruct e as [[d |] | r | id | l | c | t | st | [d |] | id | | [u |] | ];
    simpl in *; try assumption.
  - exact (upsert_ids_unique (Push r) _ H).
  - now rewrite resolve_ids.
  - exact (upsert_ids_unique (Ack d) _ H).
Qed.

(** X5: whatever the events and their order - pushes, resolutions,
    acknowledgements, clicks, failed requests, further snapshots - the ids in
    the store stay pairwise distinct, as long as every snapshot delivered has
    pairwise distinct ids and the store started that way. *)
Theorem ids_unique_invariant (es : list Event) (s : AppState) :
  NoDup (map _id (reports s)) ->
  Forall distinctSnapshot es ->
  NoDup (map _id (reports (fst (run es s)))).
Proof.
  revert s. induction es as [| e es IH]; intros s H Hd; [exact H |].
  inversion Hd as [| e' es' He Hes]; subst.
  assert (K := handle_ids_unique e s H He).
  simpl. destruct (handle e s) as [s1 out1].
  specialize (IH s1 K Hes). now destruct (run es s1).
Qed.

Lemma ids_unique_invariant_witness :
  NoDup
    (map _id
       (reports
          (fst (run [SnapshotSettled
                       (Fulfilled
                          [mkReport "a" "Loop 1" "A&T" "red" "Ann" "jam" (Some 5)]);
                     ClickResolve "a"; ResolveReport "a";
                     NewReport (mkReport "b" "Loop 1" "TMA" "red" "Bob" "" (Some 9))]
                    initial)))).
Proof.
  apply ids_unique_invariant.
  - constructor.
  - repeat constructor. intros [].
Defined.

(** ** What the board shows after an update *)

Lemma findReport_some (lp sec : string) (rs : list Report) (r : Report) :
  findReport lp sec rs = Some r -> In r rs /\ key r = (lp, sec).
Proof.
  intros H. apply find_some in H. destruct H as [Hin Hk].
  apply andb_true_iff in Hk. destruct Hk as [H1 H2].
  apply String.eqb_eq in H1, H2. unfold key. now rewrite H1, H2.
Qed.

Lemma findReport_only (lp sec : string) (rs : list Report) (p : Report) :
  In p rs ->
  key p = (lp, sec) ->
  (forall q, In q rs -> key q = (lp, sec) -> q = p) ->
  findReport lp sec rs = Some p.
Proof.
  intros Hin Hk Hall. destruct (findReport lp sec rs) as [q |] eqn:E.
  - apply findReport_some in E. f_equal. now apply Hall.
  - exfalso. apply (find_none _ _ E) in Hin.
    injection Hk as H1 H2. rewrite H1, H2, !String.eqb_refl in Hin.
    discriminate.
Qed.

Lemma findReport_app (lp sec : string) (rs more : list Report) (r : Report) :
  findReport lp sec rs = Some r ->
  findReport lp sec (rs ++ more) = Some r.
Proof.
  unfold findReport. induction rs as [| x rest IH]; simpl; [discriminate |].
  now destruct (_ && _).
Qed.

Lemma findReport_resolve (lp sec id : string) (rs : list Report) :
  findReport lp sec (resolveReportUpdate id rs)
  = option_map (fun r => if (_id r =? id)%string then resolved r else r)
               (findReport lp sec rs).
Proof.
  unfold findReport, resolveReportUpdate.
  induction rs as [| x rest IH]; [reflexivity |].
  simpl. replace (loop (if (_id x =? id)%string then resolved x else x))
    with (loop x) by now destruct (_id x =? id)%string.
  replace (section (if (_id x =? id)%string then resolved x else x))
    with (section x) by now destruct (_id x =? id)%string.
  now destruct (_ && _).
Qed.

Lemma sendReportUpdate_unknown (r : Report) (prev : list Report) :
  ~ In (_id r) (map _id prev) ->
  sendReportUpdate r prev = (prev ++ [r])%list.
Proof.
  intros H. unfold sendReportUpdate. f_equal.
  apply forallb_filter_id, forallb_forall. intros x Hx.
  apply negb_true_iff, String.eqb_neq. intros E.
  apply H. rewrite <- E. now apply in_map.
Qed.

Lemma upsert_entries_other (u : Upsert) (prev : list Report) (q : Report) :
  In q (upsert u prev) ->
  q = payload u \/ (In q prev /\ _id q <> _id (payload u)).
Proof.
  destruct u as [r | r]; simpl.
  - assert (K : forall l,
               In q (map (fun x => if (_id x =? _id r)%string then r else x) l) ->
               q = r \/ (In q l /\ _id q <> _id r)).
    { intros l Hl. apply in_map_iff in Hl. destruct Hl as (x & Ex & Hx).
      destruct (String.eqb_spec (_id x) (_id r)); subst; auto. }
    unfold newReportUpdate. destruct (existsb _ _); [apply K |].
    intros H. apply in_app_or in H.
    destruct H as [H | [H | []]]; [now apply K | auto].
  - unfold sendReportUpdate. intros H. apply in_app_or in H.
    destruct H as [H | [H | []]]; [| auto].
    apply filter_In in H. destruct H as [H1 H2].
    apply negb_true_iff, String.eqb_neq in H2. auto.
Qed.

(** X6: after the resolution of an id, a cell that displayed an entry under
    that id is the bare green cell; a cell that displayed an entry under
    another id, or none, is rendered as before. *)
Theorem resolve_board (manila : Z -> Z) (now : Z) (id lp sec : string)
        (rs : list Report) :
  renderCell manila now (resolveReportUpdate id rs) lp sec
  = match findReport lp sec rs with
    | Some r => if (_id r =? id)%string then greenCell sec
                else renderCell manila now rs lp sec
    | None => renderCell manila now rs lp sec
    end.
Proof.
  unfold renderCell. rewrite findReport_resolve.
  destruct (findReport lp sec rs) as [r |]; simpl; [| reflexivity].
  now destruct (_id r =? id)%string.
Qed.

(** X7: a Resolve button carries the id of a store entry.  Clicking it,
    confirming, the request's success and the resolution push that follows
    issue the one request [POST /resolve/id], close the modal and leave the
    cell green and bare. *)
Theorem resolve_end_to_end (manila : Z -> Z) (now : Z) (s : AppState)
        (lp sec id : string) :
  cellResolve (renderCell manila now (reports s) lp sec) = Some id ->
  truthy id = true ->
  let clicks :=
    [ClickResolve id; ClickYes; ResolveSettled (Fulfilled tt); ResolveReport id] in
  In id (map _id (reports s)) /\
  allEnabled clicks s = true /\
  snd (run clicks s) = [PostResolve id] /\
  flow (fst (run clicks s)) = Idle /\
  renderCell manila now (reports (fst (run clicks s))) lp sec = greenCell sec.
Proof.
  intros Hb Ht clicks.
  assert (K : exists r, findReport lp sec (reports s) = Some r /\ _id r = id).
  { unfold renderCell, renderReport in Hb.
    destruct (findReport lp sec (reports s)) as [r |]; [| discriminate].
    destruct (status r =? "green")%string; [discriminate |].
    injection Hb as Hb. now exists r. }
  destruct K as (r & Hr & Hid).
  split; [| split; [| split; [| split]]].
  - apply findReport_some in Hr. rewrite <- Hid. now apply in_map.
  - reflexivity.
  - unfold clicks. simpl. unfold resolveReport. simpl. now rewrite Ht.
  - reflexivity.
  - unfold clicks. simpl. rewrite resolve_board, Hr.
    apply String.eqb_eq in Hid. now rewrite Hid.
Qed.

Lemma resolve_end_to_end_witness :
  snd (run [ClickResolve "r1"; ClickYes; ResolveSettled (Fulfilled tt);
            ResolveReport "r1"]
           (setReports
              (fun _ => [mkReport "r1" "Loop 1" "A&T" "red" "Bob" "jam" (Some 7)])
              initial))
  = [PostResolve "r1"].
Proof.
  destruct (resolve_end_to_end manila_local 9000
              (setReports
                 (fun _ => [mkReport "r1" "Loop 1" "A&T" "red" "Bob" "jam" (Some 7)])
                 initial)
              "Loop 1" "A&T" "r1") as (_ & _ & H & _).
  - reflexivity.
  - reflexivity.
  - exact H.
Defined.

(** X8: a report arriving under an id the store does not know, for a
    station that already has an entry, does not reach the board: the
    station's cell keeps rendering the entry it rendered before. *)
Theorem fresh_id_not_shown (manila : Z -> Z) (now : Z) (u : Upsert)
        (store : list Report) (lp sec : string) (r : Report) :
  ~ In (_id (payload u)) (map _id store) ->
  findReport lp sec store = Some r ->
  findReport lp sec (upsert u store) = Some r /\
  renderCell manila now (upsert u store) lp sec
  = renderCell manila now store lp sec.
Proof.
  intros Hnew Hr.
  assert (K : upsert u store = (store ++ [payload u])%list).
  { destruct u; simpl in *;
      [now apply newReportUpdate_unknown | now apply sendReportUpdate_unknown]. }
  assert (F : findReport lp sec (upsert u store) = Some r)
    by (rewrite K; now apply findReport_app).
  split; [exact F |]. unfold renderCell. now rewrite F, Hr.
Qed.

Lemma fresh_id_not_shown_witness :
  renderCell manila_local 9000
    (upsert (Ack (mkReport "b" "Loop 1" "A&T" "green" "Bob" "" None))
       [mkReport "a" "Loop 1" "A&T" "red" "Ann" "jam" (Some 5000)])
    "Loop 1" "A&T"
  = renderCell manila_local 9000
      [mkReport "a" "Loop 1" "A&T" "red" "Ann" "jam" (Some 5000)]
      "Loop 1" "A&T".
Proof.
  apply (fresh_id_not_shown manila_local 9000
           (Ack (mkReport "b" "Loop 1" "A&T" "green" "Bob" "" None))
           [mkReport "a" "Loop 1" "A&T" "red" "Ann" "jam" (Some 5000)]
           "Loop 1" "A&T"
           (mkReport "a" "Loop 1" "A&T" "red" "Ann" "jam" (Some 5000))).
  - simpl. intros [E | []]. discriminate E.
  - reflexivity.
Defined.

(** X9: when every entry the store holds for a station carries the incoming
    report's id, an upsert of a report for that station is what the station's
    cell renders afterwards. *)
Theorem upsert_shown (manila : Z -> Z) (now : Z) (u : Upsert)
        (store : list Report) (lp sec : string) :
  key (payload u) = (lp, sec) ->
  (forall q, In q store -> key q = (lp, sec) -> _id q = _id (payload u)) ->
  findReport lp sec (upsert u store) = Some (payload u) /\
  renderCell manila now (upsert u store) lp sec
  = renderReport manila now sec (payload u).
Proof.
  intros Hk Hall.
  assert (F : findReport lp sec (upsert u store) = Some (payload u)).
  { apply findReport_only; [apply upsert_has_payload | exact Hk |].
    intros q Hq Hkq. apply upsert_entries_other in Hq.
    destruct Hq as [Hq | [Hq Hne]]; [exact Hq |].
    exfalso. apply Hne. now apply Hall. }
  split; [exact F |]. unfold renderCell. now rewrite F.
Qed.

Lemma upsert_shown_witness :
  renderCell manila_local 9000
    (upsert (Push (mkReport "a" "Loop 1" "A&T" "yellow" "Ann" "wait" (Some 8000)))
       [mkReport "a" "Loop 1" "A&T" "red" "Ann" "jam" (Some 5000)])
    "Loop 1" "A&T"
  = mkCell "A&T" "yellow" (Some "wait") (Some "1s ago") (Some "a").
Proof.
  refine (eq_trans
            (proj2 (upsert_shown manila_local 9000
                      (Push (mkReport "a" "Loop 1" "A&T" "yellow" "Ann" "wait"
                               (Some 8000)))
                      [mkReport "a" "Loop 1" "A&T" "red" "Ann" "jam" (Some 5000)]
                      "Loop 1" "A&T" _ _)) _).
  - reflexivity.
  - intros q [E | []] _. subst q. reflexivity.
  - reflexivity.
Defined.

Lemma key_injective (rs : list Report) (p q : Report) :
  NoDup (map key rs) -> In p rs -> In q rs -> key p = key q -> p = q.
Proof.
  induction rs as [| x rest IH]; intros H Hp Hq E; [contradiction |].
  apply NoDup_cons_iff in H. destruct H as [Hx Hrest].
  destruct Hp as [-> | Hp], Hq as [-> | Hq].
  - reflexivity.
  - exfalso. apply Hx. rewrite E. now apply in_map.
  - exfalso. apply Hx. rewrite <- E. now apply in_map.
  - now apply IH.
Qed.

Lemma findReport_permutation (lp sec : string) (rs rs' : list Report) :
  NoDup (map key rs) ->
  Permutation rs rs' ->
  findReport lp sec rs' = findReport lp sec rs.
Proof.
  intros H P. destruct (findReport lp sec rs) as [r |] eqn:E.
  - apply findReport_some in E. destruct E as [Hin Hk].
    apply findReport_only; [now apply (Permutation_in _ P) | exact Hk |].
    intros q Hq Hkq. apply (Permutation_in _ (Permutation_sym P)) in Hq.
    apply (key_injective rs); congruence.
  - destruct (findReport lp sec rs') as [q |] eqn:E'; [| reflexivity].
    apply findReport_some in E'. destruct E' as [Hin Hk].
    apply (Permutation_in _ (Permutation_sym P)) in Hin.
    apply (find_none _ _ E) in Hin. injection Hk as H1 H2.
    rewrite H1, H2, !String.eqb_refl in Hin. discriminate.
Qed.

(** X10: when no two entries share a key, the order of the store does not
    matter to the board: any rearrangement of the store renders the same
    dashboard. *)
Theorem dashboard_order_irrelevant (manila : Z -> Z) (now : Z)
        (rs rs' : list Report) :
  NoDup (map key rs) ->
  Permutation rs rs' ->
  dashboard manila now rs' = dashboard manila now rs.
Proof.
  intros H P. unfold dashboard. apply map_ext. intros [lp secs]. simpl.
  f_equal. apply map_ext. intros sec. unfold renderCell.
  now rewrite (findReport_permutation lp sec rs rs' H P).
Qed.

Lemma dashboard_order_irrelevant_witness :
  dashboard manila_local 9000
    [mkReport "b" "Loop 1" "TMA" "yellow" "Bob" "" (Some 4000);
     mkReport "a" "Loop 1" "A&T" "red" "Ann" "jam" (Some 5000)]
  = dashboard manila_local 9000
      [mkReport "a" "Loop 1" "A&T" "red" "Ann" "jam" (Some 5000);
       mkReport "b" "Loop 1" "TMA" "yellow" "Bob" "" (Some 4000)].
Proof.
  apply dashboard_order_irrelevant.
  - simpl. constructor.
    + intros [E | []]. discriminate E.
    + constructor; [intros [] | constructor].
  - apply perm_swap.
Defined.

(** ** Requests the component issues *)

Lemma handle_staged (e : Event) (s : AppState) (id : string) :
  selectedReportId (fst (handle e s)) = Some id ->
  e = ClickResolve id \/ selectedReportId s = Some id.
Proof.
  destruct e as [[d |] | r | i | l | c | t | st | [d |] | i | | [u |] | ];
    simpl; auto; try discriminate.
  intros [= ->]. now left.
Qed.

Lemma handle_resolve_request (e : Event) (s : AppState) (id : string) :
  In (PostResolve id) (snd (handle e s)) ->
  truthy id = true /\ selectedReportId s = Some id.
Proof.
  destruct e as [[d |] | r | i | l | c | t | st | [d |] | i | | [u |] | ];
    simpl; try contradiction; try (intros [H | []]; discriminate H).
  unfold resolveReport. destruct (selectedReportId s) as [i |]; [| contradiction].
  destruct (truthy i) eqn:E; [| contradiction].
  intros [[= ->] | []]. now split.
Qed.

(** X11: the component never posts a resolution for an empty id, and every
    id it posts was staged: it was the staged id of the starting state or the
    id of a Resolve button clicked during the run. *)
Theorem resolve_requests_staged (es : list Event) (s : AppState) (id : string) :
  In (PostResolve id) (snd (run es s)) ->
  truthy id = true /\
  (selectedReportId s = Some id \/ In (ClickResolve id) es).
Proof.
  revert s. induction es as [| e es IH]; intros s H; [contradiction |].
  simpl in H.
  assert (K1 := handle_resolve_request e s id).
  assert (K2 := handle_staged e s id).
  destruct (handle e s) as [s1 out1]. specialize (IH s1).
  destruct (run es s1) as [s2 out2]. simpl in *.
  apply in_app_or in H. destruct H as [H | H].
  - destruct (K1 H) as [Ht Hs]. auto.
  - destruct (IH H) as [Ht [Hs | Hin]]; split; auto.
    destruct (K2 Hs) as [-> | Hs']; auto.
Qed.

Lemma resolve_requests_staged_witness :
  truthy "r1" = true /\
  (selectedReportId initial = Some "r1" \/
   In (ClickResolve "r1") [ClickResolve "r1"; ClickYes]).
Proof.
  apply (resolve_requests_staged [ClickResolve "r1"; ClickYes] initial "r1").
  simpl. now left.
Defined.

Lemma existsb_eqb_In (x : string) (l : list string) :
  existsb (String.eqb x) l = true -> In x l.
Proof.
  intros H. apply existsb_exists in H. destruct H as (y & Hy & E).
  apply String.eqb_eq in E. now subst y.
Qed.

Lemma catalogSections_keys (lp sec : string) :
  In sec (catalogSections lp) -> In (lp, sec) catalogKeys.
Proof.
  unfold catalogSections, catalogKeys.
  destruct (find _ productionAreas) as [[l secs] |] eqn:E; [| contradiction].
  apply find_some in E. destruct E as [Hin E]. simpl in E.
  apply String.eqb_eq in E. subst l. intros H.
  apply in_flat_map. exists (lp, secs). split; [exact Hin |].
  simpl. now apply in_map.
Qed.

Lemma first_section_offered (newLoop : string) :
  existsb (String.eqb newLoop) (map fst productionAreas) = true ->
  In (first (catalogSections newLoop)) (catalogSections newLoop).
Proof.
  intros H. apply existsb_eqb_In in H. simpl in H.
  destruct H as [<- | [<- | [<- | [<- | [<- | [<- | []]]]]]]; now left.
Qed.

Lemma handle_form_in_catalog (e : Event) (s : AppState) :
  In (selectedLoop s, selectedSection s) catalogKeys ->
  offered e s = true ->
  In (selectedLoop (fst (handle e s)), selectedSection (fst (handle e s)))
     catalogKeys.
Proof.
  intros H Ho. unfold offered in Ho. apply andb_true_iff in Ho.
  destruct Ho as [_ Ho].
  destruct e as [[d |] | r | i | l | c | t | st | [d |] | i | | [u |] | ];
    simpl in *; try exact H.
  - now apply catalogSections_keys, first_section_offered.
  - now apply catalogSections_keys, existsb_eqb_In.
Qed.

Lemma handle_report_request (e : Event) (s : AppState)
      (lp sec st asg rmk : string) :
  offered e s = true ->
  In (PostReport lp sec st asg rmk) (snd (handle e s)) ->
  lp = selectedLoop s /\ sec = selectedSection s /\
  In st statusButtons /\ asg = "John Doe" /\ rmk = remarkText s.
Proof.
  intros Ho. unfold offered in Ho. apply andb_true_iff in Ho.
  destruct Ho as [_ Ho].
  destruct e as [[d |] | r | i | l | c | t | b | [d |] | i | | [u |] | ];
    simpl; try contradiction; try (intros [H | []]; discriminate H).
  - intros [[= <- <- <- <- <-] | []]. apply existsb_eqb_In in Ho. auto.
  - unfold resolveReport. destruct (selectedReportId s) as [i |]; [| contradiction].
    destruct (truthy i); [| contradiction]. intros [H | []]. discriminate H.
Qed.

(** X12: as long as the user picks what the form offers, the selected group
    and section always name a station of the catalog, and every submit
    request the component issues is for a catalog station, with one of the
    three statuses and the assignee "John Doe". *)
Theorem submit_requests_in_catalog (es : list Event) (s : AppState) :
  In (selectedLoop s, selectedSection s) catalogKeys ->
  allOffered es s = true ->
  In (selectedLoop (fst (run es s)), selectedSection (fst (run es s)))
     catalogKeys /\
  (forall lp sec st asg rmk,
      In (PostReport lp sec st asg rmk) (snd (run es s)) ->
      In (lp, sec) catalogKeys /\ In st statusButtons /\ asg = "John Doe").
Proof.
  revert s. induction es as [| e es IH]; intros s H Ho.
  - split; [exact H | contradiction].
  - simpl in Ho. apply andb_true_iff in Ho. destruct Ho as [He Hes].
    assert (K1 := handle_form_in_catalog e s H He).
    assert (K2 := handle_report_request e s).
    simpl. destruct (handle e s) as [s1 out1]. simpl in *.
    destruct (IH s1 K1 Hes) as [I1 I2].
    destruct (run es s1) as [s2 out2]. simpl in *.
    split; [exact I1 |].
    intros lp sec st asg rmk Hin. apply in_app_or in Hin.
    destruct Hin as [Hin | Hin]; [| now apply (I2 lp sec st asg rmk)].
    destruct (K2 lp sec st asg rmk He Hin) as (-> & -> & Hst & -> & _).
    auto.
Qed.

Lemma submit_requests_in_catalog_witness :
  In (selectedLoop
        (fst (run [ChangeLoop "Quality"; ChangeSection "ZEISS"; ClickStatus "red"]
                  initial)),
      selectedSection
        (fst (run [ChangeLoop "Quality"; ChangeSection "ZEISS"; ClickStatus "red"]
                  initial)))
     catalogKeys.
Proof.
  apply (submit_requests_in_catalog
           [ChangeLoop "Quality"; ChangeSection "ZEISS"; ClickStatus "red"]
           initial).
  - simpl. now left.
  - reflexivity.
Defined.

(** X13: the board is not updated optimistically: clicks, form input and
    failed requests leave the report store as it is; only a fulfilled
    snapshot, a push or an acknowledged submit writes it. *)
Theorem store_written_by_network_only (es : list Event) (s : AppState) :
  forallb (fun e => negb (writesStore e)) es = true ->
  reports (fst (run es s)) = reports s.
Proof.
  revert s. induction es as [| e es IH]; intros s H; [reflexivity |].
  simpl in H. apply andb_true_iff in H. destruct H as [He Hes].
  assert (K : reports (fst (handle e s)) = reports s).
  { destruct e as [[d |] | r | i | l | c | t | st | [d |] | i | | [u |] | ];
      simpl in *; solve [reflexivity | discriminate]. }
  simpl. destruct (handle e s) as [s1 out1]. specialize (IH s1 Hes).
  destruct (run es s1) as [s2 out2]. simpl in *. congruence.
Qed.

Lemma store_written_by_network_only_witness :
  reports
    (fst (run [ClickStatus "red"; ReportSettled (Rejected "Network Error"); ClickResolve "a";
               ClickYes; ResolveSettled (Fulfilled tt)]
              (setReports
                 (fun _ => [mkReport "a" "Loop 1" "A&T" "red" "Ann" "jam" (Some 5)])
                 initial)))
  = [mkReport "a" "Loop 1" "A&T" "red" "Ann" "jam" (Some 5)].
Proof.
  apply (store_written_by_network_only
           [ClickStatus "red"; ReportSettled (Rejected "Network Error"); ClickResolve "a";
            ClickYes; ResolveSettled (Fulfilled tt)]
           (setReports
              (fun _ => [mkReport "a" "Loop 1" "A&T" "red" "Ann" "jam" (Some 5)])
              initial)).
  reflexivity.
Defined.

(** ** Edges of the elapsed-time label *)

Lemma show_negative (n : Z) : n < 0 -> show n = "-" ++ show (- n).
Proof.
  destruct n as [| p | p]; try lia. intros _. reflexivity.
Qed.

(** X14: in a browser whose zone keeps a constant offset from Manila time, a
    timestamp later than the current time is not clamped and never reaches
    the minute, hour or day branches: the label is the difference of the two
    clock seconds, which is not positive, followed by "s ago".  It is
    "0s ago" when both instants fall in the same clock second, and a negative
    count when the timestamp is a second or more ahead. *)
Theorem timeAgo_future (manila : Z -> Z) (shift now ts : Z) :
  wallClock shift manila ->
  now < ts ->
  diffInSeconds manila now ts = now / 1000 - ts / 1000 /\
  diffInSeconds manila now ts <= 0 /\
  timeAgo manila now (Some ts) = show (now / 1000 - ts / 1000) ++ "s ago" /\
  (now / 1000 = ts / 1000 -> timeAgo manila now (Some ts) = "0s ago") /\
  (now + 1000 <= ts ->
   diffInSeconds manila now ts < 0 /\
   timeAgo manila now (Some ts)
   = "-" ++ show (ts / 1000 - now / 1000) ++ "s ago").
Proof.
  intros Hm Hlt.
  assert (D := wallClock_diff manila shift now ts Hm).
  assert (P : now / 1000 - ts / 1000 <= 0).
  { assert (now / 1000 <= ts / 1000) by (apply Z.div_le_mono; lia). lia. }
  assert (L : timeAgo manila now (Some ts)
              = show (now / 1000 - ts / 1000) ++ "s ago").
  { unfold timeAgo. rewrite D. apply label_seconds. lia. }
  split; [exact D |]. split; [now rewrite D |]. split; [exact L |]. split.
  - intros E. rewrite L, E, Z.sub_diag. reflexivity.
  - intros Hs.
    assert (N : now / 1000 - ts / 1000 < 0)
      by (Z.to_euclidean_division_equations; lia).
    split; [now rewrite D |].
    rewrite L, show_negative by exact N.
    now replace (- (now / 1000 - ts / 1000)) with (ts / 1000 - now / 1000) by lia.
Qed.

Lemma timeAgo_future_witness :
  timeAgo manila_local 1000 (Some 7201000) = "-7200s ago".
Proof.
  destruct (timeAgo_future manila_local 0 1000 7201000) as (_ & _ & _ & _ & H).
  - intros d. unfold manila_local. lia.
  - lia.
  - destruct H as [_ H]; [lia | exact H].
Defined.

(** X15: from one minute on the label never shows 0 and never a number that
    fills the next unit: minutes run from 1 to 59 and hours from 1 to 23; days
    start at 1. *)
Theorem label_quantity (d : Z) :
  60 <= d ->
  exists q,
    1 <= q /\
    ((d < 3600 /\ q < 60 /\ label d = show q ++ "m ago") \/
     (3600 <= d < 86400 /\ q < 24 /\ label d = show q ++ "hr ago") \/
     (86400 <= d /\ label d = show q ++ "d ago")).
Proof.
  intros H. destruct (label_quantity_bounds d) as (Hm & Hh & Hd).
  destruct (Z_lt_ge_dec d 3600) as [L1 | L1].
  - exists (d / 60). split; [apply Hm; lia |]. left.
    repeat split; [exact L1 | apply Hm; lia | apply label_minutes; lia].
  - destruct (Z_lt_ge_dec d 86400) as [L2 | L2].
    + exists (d / 3600). split; [apply Hh; lia |]. right. left.
      repeat split; [lia | exact L2 | apply Hh; lia | apply label_hours; lia].
    + exists (d / 86400). split; [apply Hd; lia |]. right. right.
      split; [lia | apply label_days; lia].
Qed.

Lemma label_quantity_witness :
  exists q,
    1 <= q /\
    ((3599 < 3600 /\ q < 60 /\ label 3599 = show q ++ "m ago") \/
     (3600 <= 3599 < 86400 /\ q < 24 /\ label 3599 = show q ++ "hr ago") \/
     (86400 <= 3599 /\ label 3599 = show q ++ "d ago")).
Proof.
  apply (label_quantity 3599). lia.
Defined.

(** ** The two upsert paths *)

Lemma newReportUpdate_cons_other (r x : Report) (rest : list Report) :
  _id x <> _id r ->
  newReportUpdate r (x :: rest) = x :: newReportUpdate r rest.
Proof.
  intros H. apply String.eqb_neq in H. unfold newReportUpdate. simpl.
  rewrite H. simpl. rewrite H. simpl. now destruct (existsb _ _).
Qed.

Lemma push_ack_permutation (r : Report) (prev : list Report) :
  NoDup (map _id prev) ->
  Permutation (newReportUpdate r prev) (sendReportUpdate r prev).
Proof.
  induction prev as [| x rest IH]; intros H; [apply Permutation_refl |].
  apply NoDup_cons_iff in H. destruct H as [Hx Hrest].
  destruct (String.eqb_spec (_id x) (_id r)) as [E | E].
  - rewrite E in Hx.
    assert (Eb : (_id x =? _id r)%string = true) by now apply String.eqb_eq.
    assert (S : sendReportUpdate r (x :: rest) = sendReportUpdate r rest)
      by (unfold sendReportUpdate; simpl; now rewrite Eb).
    rewrite S, (sendReportUpdate_unknown r rest Hx).
    rewrite newReportUpdate_known by (simpl; left; congruence).
    simpl. rewrite Eb, map_unchanged.
    + apply Permutation_cons_append.
    + intros q Hq. destruct (String.eqb_spec (_id q) (_id r)) as [Eq | Eq];
        [| reflexivity].
      exfalso. apply Hx. rewrite <- Eq. now apply in_map.
  - rewrite newReportUpdate_cons_other by exact E.
    unfold sendReportUpdate. simpl. apply String.eqb_neq in E. rewrite E. simpl.
    apply perm_skip. now apply IH.
Qed.

(** X16: a push updates in place and an acknowledgement moves the report to
    the end, yet on a store with distinct ids both leave the same entries,
    and the same board when the resulting keys are distinct. *)
Theorem push_ack_same_board (manila : Z -> Z) (now : Z) (r : Report)
        (prev : list Report) :
  NoDup (map _id prev) ->
  Permutation (newReportUpdate r prev) (sendReportUpdate r prev) /\
  (NoDup (map key (newReportUpdate r prev)) ->
   dashboard manila now (sendReportUpdate r prev)
   = dashboard manila now (newReportUpdate r prev)).
Proof.
  intros H. assert (P := push_ack_permutation r prev H).
  split; [exact P |]. intros Hk.
  unfold dashboard. apply map_ext. intros [lp secs]. simpl.
  f_equal. apply map_ext. intros sec. unfold renderCell.
  now rewrite (findReport_permutation lp sec _ _ Hk P).
Qed.

Lemma push_ack_same_board_witness :
  Permutation
    (newReportUpdate (mkReport "a" "Loop 1" "A&T" "green" "Ann" "" None)
       [mkReport "a" "Loop 1" "A&T" "red" "Ann" "jam" (Some 5);
        mkReport "b" "Loop 1" "TMA" "yellow" "Bob" "" (Some 9)])
    (sendReportUpdate (mkReport "a" "Loop 1" "A&T" "green" "Ann" "" None)
       [mkReport "a" "Loop 1" "A&T" "red" "Ann" "jam" (Some 5);
        mkReport "b" "Loop 1" "TMA" "yellow" "Bob" "" (Some 9)]).
Proof.
  apply (push_ack_same_board manila_local 0).
  simpl. constructor.
  - intros [E | []]. discriminate E.
  - constructor; [intros [] | constructor].
Defined.
